(** * Focus ring of penrose: [Ring<T>] from src/core/data_types.rs

    Shallow embedding of [Direction], [Selector] and [Ring<T>].  The
    [VecDeque<T>] of elements is a [list T]; [usize] values are [N] and every
    [usize] addition and subtraction the source performs is written out with
    Rust's two overflow behaviours: a checked build panics, a wrapping build
    reduces modulo 2^64.  Operations that may panic return a [Res]. *)

From Stdlib Require Import List NArith ZArith Lia Permutation.
Import ListNotations.

(** ** Panics *)

Inductive Res (A : Type) : Type :=
| Ok (a : A)
| Panic.
Arguments Ok {A} a.
Arguments Panic {A}.

Definition bind {A B : Type} (m : Res A) (k : A -> Res B) : Res B :=
  match m with
  | Ok a => k a
  | Panic => Panic
  end.

Notation "x <- m ;; k" := (bind m (fun x => k))
  (at level 61, m at next level, right associativity).

(** ** [usize] arithmetic *)

(** Rust's overflow behaviour: checked in debug builds, wrapping in release. *)
Inductive Overflow := Checked | Wrapping.

Definition usize_modulus : N := 2 ^ 64.
Definition usize_max : N := usize_modulus - 1.

Definition usize_sub (p : Overflow) (a b : N) : Res N :=
  if (b <=? a)%N then Ok (a - b)%N
  else match p with
       | Checked => Panic
       | Wrapping => Ok (a + usize_modulus - b)%N
       end.

Definition usize_add (p : Overflow) (a b : N) : Res N :=
  if (a + b <=? usize_max)%N then Ok (a + b)%N
  else match p with
       | Checked => Panic
       | Wrapping => Ok ((a + b) mod usize_modulus)%N
       end.

(** ** [Direction] *)

Inductive Direction := Forward | Backward.

Definition reverse (d : Direction) : Direction :=
  match d with
  | Forward => Backward
  | Backward => Forward
  end.

Definition direction_eqb (a b : Direction) : bool :=
  match a, b with
  | Forward, Forward | Backward, Backward => true
  | _, _ => false
  end.

(** ** [VecDeque<T>] operations used by the ring *)

Section VecDeque.
Context {T : Type}.

(** [VecDeque::get] *)
Definition vd_get (l : list T) (i : N) : option T := nth_error l (N.to_nat i).

(** [deque[i]]: panics out of range. *)
Definition vd_index (l : list T) (i : N) : Res T :=
  match vd_get l i with
  | Some x => Ok x
  | None => Panic
  end.

(** [rotate_right(1)]: the last element moves to the front. *)
Definition vd_rotate_right1 (l : list T) : list T :=
  match l with
  | [] => []
  | x :: _ => last l x :: removelast l
  end.

(** [rotate_left(1)]: the first element moves to the back. *)
Definition vd_rotate_left1 (l : list T) : list T :=
  match l with
  | [] => []
  | x :: r => r ++ [x]
  end.

(** Overwrite slot [i] (in range) with [v]. *)
Definition vd_set (l : list T) (i : nat) (v : T) : list T :=
  firstn i l ++ v :: skipn (S i) l.

(** [VecDeque::swap(i, j)]: asserts both indices are in range. *)
Definition vd_swap (l : list T) (i j : N) : Res (list T) :=
  match vd_get l i, vd_get l j with
  | Some xi, Some xj => Ok (vd_set (vd_set l (N.to_nat i) xj) (N.to_nat j) xi)
  | _, _ => Panic
  end.

(** [VecDeque::insert(i, x)]: panics when [i > len]. *)
Definition vd_insert (l : list T) (i : N) (x : T) : Res (list T) :=
  if (i <=? N.of_nat (length l))%N
  then Ok (firstn (N.to_nat i) l ++ x :: skipn (N.to_nat i) l)
  else Panic.

(** [VecDeque::remove(i)]: [None] and no change when out of range. *)
Definition vd_remove (l : list T) (i : N) : list T * option T :=
  match vd_get l i with
  | Some x => (firstn (N.to_nat i) l ++ skipn (S (N.to_nat i)) l, Some x)
  | None => (l, None)
  end.

(** [iter().enumerate().find(..)] over the elements with [cond]. *)
Fixpoint vd_find_from (cond : T -> bool) (i : N) (l : list T) : option (N * T) :=
  match l with
  | [] => None
  | x :: r => if cond x then Some (i, x) else vd_find_from cond (N.succ i) r
  end.

End VecDeque.

(** ** [Selector] and [Ring<T>] *)

(** An X window id ([WinId = u32]). *)
Definition WinId := N.

Inductive Selector (T : Type) : Type :=
| Focused
| Index (i : N)
| SelWinId (w : WinId)
| Condition (f : T -> bool).
Arguments Focused {T}.
Arguments Index {T} i.
Arguments SelWinId {T} w.
Arguments Condition {T} f.

Record Ring (T : Type) : Type := mkRing {
  elements : list T;
  focused : N
}.
Arguments mkRing {T} elements focused.
Arguments elements {T} r.
Arguments focused {T} r.

Section RingOps.
Context {T : Type}.
(** The build's overflow behaviour. *)
Variable p : Overflow.

Definition new (els : list T) : Ring T := mkRing els 0%N.

Definition set_focused (r : Ring T) (i : N) : Ring T := mkRing (elements r) i.
Definition set_elements (r : Ring T) (l : list T) : Ring T := mkRing l (focused r).

Definition len (r : Ring T) : N := N.of_nat (length (elements r)).

Definition would_wrap (r : Ring T) (dir : Direction) : Res bool :=
  let wrap_back := ((focused r =? 0)%N && direction_eqb dir Backward)%bool in
  m <- usize_sub p (len r) 1 ;;
  let wrap_forward := ((focused r =? m)%N && direction_eqb dir Forward)%bool in
  Ok (wrap_back || wrap_forward)%bool.

Definition focused_index (r : Ring T) : N := focused r.

(** [focused()]: [self.elements.get(self.focused)]. *)
Definition focused_elem (r : Ring T) : option T := vd_get (elements r) (focused r).

(** [focused_mut()]: the slot borrowed mutably, with its current value. *)
Definition focused_mut (r : Ring T) : option (N * T) :=
  match vd_get (elements r) (focused r) with
  | Some x => Some (focused r, x)
  | None => None
  end.

Definition rotate (r : Ring T) (direction : Direction) : Ring T :=
  match elements r with
  | [] => r
  | _ =>
      match direction with
      | Forward => set_elements r (vd_rotate_right1 (elements r))
      | Backward => set_elements r (vd_rotate_left1 (elements r))
      end
  end.

Definition next_index (r : Ring T) (direction : Direction) : Res N :=
  max <- usize_sub p (len r) 1 ;;
  match direction with
  | Forward => if (focused r =? max)%N then Ok 0%N else usize_add p (focused r) 1
  | Backward => if (focused r =? 0)%N then Ok max else usize_sub p (focused r) 1
  end.

Definition cycle_focus (r : Ring T) (direction : Direction) : Res (Ring T * option T) :=
  i <- next_index r direction ;;
  let r' := set_focused r i in
  Ok (r', focused_elem r').

Definition drag_focused (r : Ring T) (direction : Direction) : Res (Ring T * option T) :=
  nx <- next_index r direction ;;
  r1 <- match focused r, nx, direction with
        | N0, _, Backward => Ok (rotate r direction)
        | _, N0, Forward => Ok (rotate r direction)
        | f, other, _ =>
            els <- vd_swap (elements r) f other ;;
            Ok (set_elements r els)
        end ;;
  cycle_focus r1 direction.

Definition insert (r : Ring T) (index : N) (element : T) : Res (Ring T) :=
  els <- vd_insert (elements r) index element ;;
  Ok (set_elements r els).

Definition clamp_focus (r : Ring T) : Res (Ring T) :=
  if (0 <? focused r)%N then
    m <- usize_sub p (len r) 1 ;;
    if (m <=? focused r)%N then
      f <- usize_sub p (focused r) 1 ;;
      Ok (set_focused r f)
    else Ok r
  else Ok r.

Definition element_by (cond : T -> bool) (r : Ring T) : option (N * T) :=
  vd_find_from cond 0%N (elements r).

Definition element (r : Ring T) (s : Selector T) : option T :=
  match s with
  | SelWinId _ => None
  | Focused => focused_elem r
  | Index i => vd_get (elements r) i
  | Condition f =>
      match element_by f r with
      | Some (_, e) => Some e
      | None => None
      end
  end.

(** [element_mut]: the slot borrowed mutably, with its current value. *)
Definition element_mut (r : Ring T) (s : Selector T) : option (N * T) :=
  match s with
  | Focused => focused_mut r
  | Index i =>
      match vd_get (elements r) i with
      | Some x => Some (i, x)
      | None => None
      end
  | SelWinId _ => None
  | Condition f => element_by f r
  end.

Definition focus (r : Ring T) (s : Selector T) : Res (Ring T * option T) :=
  match s with
  | SelWinId _ => Ok (r, None)
  | Focused => Ok (r, focused_elem r)
  | Index i =>
      let r' := set_focused r i in
      Ok (r', focused_elem r')
  | Condition f =>
      match element_by f r with
      | Some (i, _) =>
          let r' := set_focused r i in
          x <- vd_index (elements r') (focused r') ;;
          Ok (r', Some x)
      | None => Ok (r, None)
      end
  end.

(** The removal of slot [i] followed by [clamp_focus], shared by three arms. *)
Definition remove_at (r : Ring T) (i : N) : Res (Ring T * option T) :=
  let '(els, c) := vd_remove (elements r) i in
  r' <- clamp_focus (set_elements r els) ;;
  Ok (r', c).

Definition remove (r : Ring T) (s : Selector T) : Res (Ring T * option T) :=
  match s with
  | SelWinId _ => Ok (r, None)
  | Focused => remove_at r (focused r)
  | Index i => remove_at r i
  | Condition f =>
      match element_by f r with
      | Some (i, _) => remove_at r i
      | None => Ok (r, None)
      end
  end.

(** [impl ops::Index<usize> for Ring<T>]: [&self.elements[index]]. *)
Definition ring_index (r : Ring T) (index : N) : Res T := vd_index (elements r) index.

(** [as_vec] *)
Definition as_vec (r : Ring T) : list T := elements r.

End RingOps.

(** ** Well-formed rings *)

(** The ring invariant of the data model: the focused index is in range; a
    [VecDeque] never holds more than [usize::MAX] elements. *)
Definition ring_ok {T : Type} (r : Ring T) : Prop :=
  (focused r < len r)%N /\ (len r <= usize_max)%N.

(** Slot [focused] of the ring before a drag crosses the sequence boundary. *)
Definition drag_crosses {T : Type} (r : Ring T) (d : Direction) : bool :=
  match d with
  | Forward => (focused r =? len r - 1)%N
  | Backward => (focused r =? 0)%N
  end.

Ltac split_clamp :=
  repeat match goal with
  | |- context [(?a <? ?b)%N] => destruct (N.ltb_spec a b)
  | |- context [(?a <=? ?b)%N] => destruct (N.leb_spec a b)
  | H : context [(?a <? ?b)%N] |- _ => destruct (N.ltb_spec a b)
  | H : context [(?a <=? ?b)%N] |- _ => destruct (N.leb_spec a b)
  end; cbn [andb] in *.

(** ** The repository's unit tests, replayed on the model *)

Section UnitTests.
Variable p : Overflow.

Example rotate_holds_focus_but_permutes_order :
  let r := new [1; 2; 3] in
  as_vec (rotate r Forward) = [3; 1; 2] /\ focused_elem (rotate r Forward) = Some 3 /\
  as_vec (rotate (rotate r Forward) Backward) = [1; 2; 3] /\
  focused_elem (rotate (rotate r Forward) Backward) = Some 1.
Proof. repeat split; reflexivity. Qed.

Example dragging_an_element_forward :
  let r0 := new [1; 2; 3; 4] in
  drag_focused p r0 Forward = Ok (mkRing [2; 1; 3; 4] 1%N, Some 1) /\
  drag_focused p (mkRing [2; 1; 3; 4] 1%N) Forward = Ok (mkRing [2; 3; 1; 4] 2%N, Some 1) /\
  drag_focused p (mkRing [2; 3; 1; 4] 2%N) Forward = Ok (mkRing [2; 3; 4; 1] 3%N, Some 1) /\
  drag_focused p (mkRing [2; 3; 4; 1] 3%N) Forward = Ok (mkRing [1; 2; 3; 4] 0%N, Some 1).
Proof. destruct p; repeat split; reflexivity. Qed.

Example dragging_an_element_backward :
  let r0 := new [1; 2; 3; 4] in
  drag_focused p r0 Backward = Ok (mkRing [2; 3; 4; 1] 3%N, Some 1) /\
  drag_focused p (mkRing [2; 3; 4; 1] 3%N) Backward = Ok (mkRing [2; 3; 1; 4] 2%N, Some 1) /\
  drag_focused p (mkRing [2; 3; 1; 4] 2%N) Backward = Ok (mkRing [2; 1; 3; 4] 1%N, Some 1) /\
  drag_focused p (mkRing [2; 1; 3; 4] 1%N) Backward = Ok (mkRing [1; 2; 3; 4] 0%N, Some 1).
Proof. destruct p; repeat split; reflexivity. Qed.

Example remove_focused_test :
  remove p (mkRing [1; 2; 3] 2%N) Focused = Ok (mkRing [1; 2] 1%N, Some 3) /\
  remove p (mkRing [1; 2] 1%N) Focused = Ok (mkRing [1] 0%N, Some 2) /\
  remove p (mkRing [1] 0%N) Focused = Ok (mkRing [] 0%N, Some 1) /\
  remove p (mkRing [] 0%N) Focused = Ok (mkRing (@nil nat) 0%N, None).
Proof. destruct p; repeat split; reflexivity. Qed.

Example remove_by_test :
  remove p (mkRing [1; 2; 3; 4; 5; 6] 3%N) (Condition Nat.even)
  = Ok (mkRing [1; 3; 4; 5; 6] 3%N, Some 2)
  /\ focused_elem (mkRing [1; 3; 4; 5; 6] 3%N) = Some 5.
Proof. destruct p; split; reflexivity. Qed.

Example focus_by_test :
  focus (new [1; 2; 3; 4; 5; 6]) (Condition Nat.even) = Ok (mkRing [1; 2; 3; 4; 5; 6] 1%N, Some 2)
  /\ focus (new [1; 2; 3; 4; 5; 6]) (Condition (fun e => Nat.eqb (Nat.modulo e 7) 0))
     = Ok (new [1; 2; 3; 4; 5; 6], None).
Proof. split; reflexivity. Qed.

Example cycle_focus_test :
  cycle_focus p (new [1; 2; 3]) Forward = Ok (mkRing [1; 2; 3] 1%N, Some 2) /\
  cycle_focus p (mkRing [1; 2; 3] 1%N) Backward = Ok (mkRing [1; 2; 3] 0%N, Some 1).
Proof. destruct p; split; reflexivity. Qed.

End UnitTests.

(** ** Lemmas on the model *)

Lemma usize_sub_ok : forall p a b, (b <= a)%N -> usize_sub p a b = Ok (a - b)%N.
Proof. intros p a b H. unfold usize_sub. apply N.leb_le in H. rewrite H. reflexivity. Qed.

Lemma usize_add_ok : forall p a b, (a + b <= usize_max)%N -> usize_add p a b = Ok (a + b)%N.
Proof. intros p a b H. unfold usize_add. apply N.leb_le in H. rewrite H. reflexivity. Qed.

Section ListFacts.
Context {T : Type}.

Lemma vd_get_at : forall (a c : list T) x i,
  N.to_nat i = length a -> vd_get (a ++ x :: c) i = Some x.
Proof.
  intros a c x i Hi. unfold vd_get. rewrite Hi, nth_error_app2 by lia.
  rewrite Nat.sub_diag. reflexivity.
Qed.

Lemma vd_get_at2 : forall (a c : list T) y x i,
  N.to_nat i = S (length a) -> vd_get (a ++ y :: x :: c) i = Some x.
Proof.
  intros a c y x i Hi.
  replace (a ++ y :: x :: c) with ((a ++ [y]) ++ x :: c) by (rewrite <- app_assoc; reflexivity).
  apply vd_get_at. rewrite length_app. cbn [length]. lia.
Qed.

Lemma vd_set_at : forall (a c : list T) x v,
  vd_set (a ++ x :: c) (length a) v = a ++ v :: c.
Proof.
  intros a c x v. unfold vd_set. induction a as [|z a IH]; [reflexivity |].
  cbn [length app firstn skipn]. cbn [length app firstn skipn] in IH.
  f_equal. exact IH.
Qed.

Lemma vd_swap_next : forall (a c : list T) x y i j,
  N.to_nat i = length a -> N.to_nat j = S (length a) ->
  vd_swap (a ++ x :: y :: c) i j = Ok (a ++ y :: x :: c).
Proof.
  intros a c x y i j Hi Hj. unfold vd_swap.
  rewrite (vd_get_at a _ x i Hi).
  replace (a ++ x :: y :: c) with ((a ++ [x]) ++ y :: c) by (rewrite <- app_assoc; reflexivity).
  rewrite (vd_get_at (a ++ [x]) c y j) by (rewrite length_app; cbn; lia).
  rewrite <- app_assoc. cbn [app]. rewrite Hi, vd_set_at, Hj.
  replace (a ++ y :: y :: c) with ((a ++ [y]) ++ y :: c) by (rewrite <- app_assoc; reflexivity).
  replace (S (length a)) with (length (a ++ [y])) by (rewrite length_app; cbn; lia).
  rewrite vd_set_at, <- app_assoc. reflexivity.
Qed.

Lemma vd_swap_prev : forall (a c : list T) x y i j,
  N.to_nat i = S (length a) -> N.to_nat j = length a ->
  vd_swap (a ++ x :: y :: c) i j = Ok (a ++ y :: x :: c).
Proof.
  intros a c x y i j Hi Hj. unfold vd_swap.
  rewrite (vd_get_at a _ x j Hj).
  replace (a ++ x :: y :: c) with ((a ++ [x]) ++ y :: c) by (rewrite <- app_assoc; reflexivity).
  rewrite (vd_get_at (a ++ [x]) c y i) by (rewrite length_app; cbn; lia).
  rewrite Hi.
  replace (S (length a)) with (length (a ++ [x])) by (rewrite length_app; cbn; lia).
  rewrite vd_set_at, <- app_assoc. cbn [app]. rewrite Hj, vd_set_at. reflexivity.
Qed.

Lemma vd_swap_perm : forall (l l' : list T) i j,
  vd_swap l i j = Ok l' -> Permutation l' l.
Proof.
  intros l l' i j H. unfold vd_swap in H.
  destruct (vd_get l i) as [xi|] eqn:Ei; [| discriminate].
  destruct (vd_get l j) as [xj|] eqn:Ej; [| discriminate].
  injection H as <-. unfold vd_get in Ei, Ej.
  apply nth_error_split in Ei as (a & c & -> & Ha).
  rewrite <- Ha, vd_set_at.
  destruct (Nat.lt_total (N.to_nat j) (length a)) as [Hlt | [Heq | Hgt]].
  - rewrite nth_error_app1 in Ej by lia.
    apply nth_error_split in Ej as (a1 & a2 & -> & Ha1).
    replace ((a1 ++ xj :: a2) ++ xj :: c) with (a1 ++ xj :: a2 ++ xj :: c)
      by (rewrite <- app_assoc; reflexivity).
    rewrite <- Ha1, vd_set_at, <- app_assoc. cbn [app].
    apply Permutation_app_head.
    etransitivity; [apply perm_skip; symmetry; apply Permutation_middle |].
    etransitivity; [apply perm_swap |].
    apply perm_skip. apply Permutation_middle.
  - rewrite nth_error_app2 in Ej by lia. rewrite Heq, Nat.sub_diag in Ej.
    injection Ej as <-. rewrite Heq, vd_set_at. reflexivity.
  - rewrite nth_error_app2 in Ej by lia.
    destruct (N.to_nat j - length a) as [|k] eqn:Ek; [lia |].
    cbn [nth_error] in Ej.
    apply nth_error_split in Ej as (c1 & c2 & -> & Hc1).
    replace (a ++ xj :: c1 ++ xj :: c2) with ((a ++ xj :: c1) ++ xj :: c2)
      by (rewrite <- app_assoc; reflexivity).
    replace (N.to_nat j) with (length (a ++ xj :: c1)) by (rewrite length_app; cbn; lia).
    rewrite vd_set_at, <- app_assoc. cbn [app].
    apply Permutation_app_head.
    etransitivity; [apply perm_skip; symmetry; apply Permutation_middle |].
    etransitivity; [apply perm_swap |].
    apply perm_skip. apply Permutation_middle.
Qed.

Lemma vd_rotate_right1_snoc : forall (a : list T) z,
  vd_rotate_right1 (a ++ [z]) = z :: a.
Proof.
  intros a z. unfold vd_rotate_right1.
  destruct (a ++ [z]) as [|w l] eqn:E; [destruct a; discriminate |].
  rewrite <- E, last_last, removelast_last. reflexivity.
Qed.

Lemma vd_rotate_right1_perm : forall l : list T, Permutation (vd_rotate_right1 l) l.
Proof.
  intros l. destruct l as [|x l']; [reflexivity |].
  destruct (exists_last (l := x :: l') ltac:(discriminate)) as (a & z & E).
  rewrite E, vd_rotate_right1_snoc. apply Permutation_cons_append.
Qed.

Lemma vd_rotate_left1_perm : forall l : list T, Permutation (vd_rotate_left1 l) l.
Proof.
  intros [|x l]; [reflexivity |]. symmetry. apply Permutation_cons_append.
Qed.

End ListFacts.

Section WellFormed.
Context {T : Type}.
Variable p : Overflow.

Lemma next_index_forward : forall r : Ring T, ring_ok r ->
  next_index p r Forward =
  Ok (if (focused r =? len r - 1)%N then 0%N else (focused r + 1)%N).
Proof.
  intros r [Hf Hl]. unfold next_index.
  rewrite usize_sub_ok by lia. cbn [bind].
  destruct (N.eqb_spec (focused r) (len r - 1)); [reflexivity |].
  apply usize_add_ok. lia.
Qed.

Lemma next_index_backward : forall r : Ring T, ring_ok r ->
  next_index p r Backward =
  Ok (if (focused r =? 0)%N then (len r - 1)%N else (focused r - 1)%N).
Proof.
  intros r [Hf Hl]. unfold next_index.
  rewrite usize_sub_ok by lia. cbn [bind].
  destruct (N.eqb_spec (focused r) 0); [reflexivity |].
  apply usize_sub_ok. lia.
Qed.

Lemma ring_ok_set_focused : forall (r : Ring T) i,
  ring_ok r -> (i < len r)%N -> ring_ok (set_focused r i).
Proof. intros r i [_ Hl] Hi. split; assumption. Qed.

Lemma set_focused_same : forall r : Ring T, set_focused r (focused r) = r.
Proof. intros []; reflexivity. Qed.

Lemma rotate_forward_nonempty : forall r : Ring T,
  elements r <> [] -> rotate r Forward = set_elements r (vd_rotate_right1 (elements r)).
Proof. intros [[|x l] f] H; [contradiction | reflexivity]. Qed.

Lemma rotate_backward_nonempty : forall r : Ring T,
  elements r <> [] -> rotate r Backward = set_elements r (vd_rotate_left1 (elements r)).
Proof. intros [[|x l] f] H; [contradiction | reflexivity]. Qed.

(** The four arms of the [match] in [drag_focused]. *)
Lemma drag_focused_rotate_fwd : forall r : Ring T,
  next_index p r Forward = Ok 0%N ->
  drag_focused p r Forward = cycle_focus p (rotate r Forward) Forward.
Proof. intros r H. unfold drag_focused. rewrite H. destruct (focused r); reflexivity. Qed.

Lemma drag_focused_swap_fwd : forall (r : Ring T) nx,
  next_index p r Forward = Ok nx -> nx <> 0%N ->
  drag_focused p r Forward =
  (els <- vd_swap (elements r) (focused r) nx ;; cycle_focus p (set_elements r els) Forward).
Proof.
  intros r nx H Hnx. unfold drag_focused. rewrite H. cbn [bind].
  destruct nx as [|q]; [contradiction |].
  destruct (focused r), (vd_swap _ _ _); reflexivity.
Qed.

Lemma drag_focused_rotate_bwd : forall (r : Ring T) nx,
  focused r = 0%N -> next_index p r Backward = Ok nx ->
  drag_focused p r Backward = cycle_focus p (rotate r Backward) Backward.
Proof. intros r nx Hf H. unfold drag_focused. rewrite H, Hf. destruct nx; reflexivity. Qed.

Lemma drag_focused_swap_bwd : forall (r : Ring T) nx,
  focused r <> 0%N -> next_index p r Backward = Ok nx ->
  drag_focused p r Backward =
  (els <- vd_swap (elements r) (focused r) nx ;; cycle_focus p (set_elements r els) Backward).
Proof.
  intros r nx Hf H. unfold drag_focused. rewrite H. cbn [bind].
  destruct (focused r) as [|q]; [contradiction |].
  destruct nx, (vd_swap _ _ _); reflexivity.
Qed.

Lemma drag_focused_shape : forall (r : Ring T) d, ring_ok r ->
  exists x r',
    focused_elem r = Some x /\
    drag_focused p r d = Ok (r', Some x) /\
    focused_elem r' = Some x /\
    next_index p r d = Ok (focused r') /\
    (if drag_crosses r d then elements r' = elements (rotate r d)
     else vd_swap (elements r) (focused r) (focused r') = Ok (elements r')).
Proof.
  intros [l f] d Hok. pose proof Hok as [Hf Hl].
  unfold len in Hf, Hl; cbn [elements focused] in Hf, Hl.
  assert (Hne : l <> []) by (intros ->; cbn in Hf; lia).
  destruct d; unfold drag_crosses, len; cbn [elements focused].
  - pose proof (next_index_forward (mkRing l f) Hok) as Hn.
    unfold len in Hn; cbn [elements focused] in Hn.
    destruct (N.eqb_spec f (N.of_nat (length l) - 1)) as [He | He].
      rewrite (drag_focused_rotate_fwd _ Hn), rotate_forward_nonempty by exact Hne.
      unfold set_elements; cbn [elements focused].
      destruct (exists_last Hne) as (a & z & El). subst l.
      rewrite length_app in *; cbn [length] in *.
      rewrite vd_rotate_right1_snoc.
      unfold cycle_focus.
      rewrite (next_index_forward (mkRing (z :: a) f))
        by (split; unfold len; cbn [elements focused length]; lia).
      unfold len; cbn [elements focused length bind].
      rewrite (proj2 (N.eqb_eq _ _)) by lia.
      exists z, (mkRing (z :: a) 0%N).
      split; [unfold focused_elem; apply vd_get_at; cbn [elements focused]; lia |].
      repeat split; [exact Hn].
      rewrite (drag_focused_swap_fwd _ _ Hn) by lia.
      cbn [elements focused].
      pose proof (firstn_skipn (N.to_nat f) l) as Ed.
      pose proof (length_skipn (N.to_nat f) l) as Ls.
      pose proof (length_firstn (N.to_nat f) l) as Lf.
      set (a := firstn (N.to_nat f) l) in *.
      destruct (skipn (N.to_nat f) l) as [|x [|y c]]; cbn [length] in Ls; [lia | lia |].
      assert (Ha : length a = N.to_nat f) by lia.
      clearbody a. subst l. clear Lf Ls.
      rewrite (vd_swap_next a c x y f (f + 1)) by lia. cbn [bind].
      unfold set_elements; cbn [elements focused].
      unfold cycle_focus.
      rewrite (next_index_forward (mkRing (a ++ y :: x :: c) f))
        by (split; unfold len; cbn [elements focused]; rewrite length_app in *; cbn [length] in *; lia).
      unfold len; cbn [elements focused bind].
      rewrite length_app in *; cbn [length] in *.
      rewrite (proj2 (N.eqb_neq _ _)) by lia.
      exists x, (mkRing (a ++ y :: x :: c) (f + 1)).
      unfold focused_elem, set_focused; cbn [elements focused].
      rewrite (vd_get_at a _ x f) by lia.
      rewrite (vd_get_at2 a c y x (f + 1)) by lia.
      repeat split; [exact Hn |].
      apply vd_swap_next; lia.
  - pose proof (next_index_backward (mkRing l f) Hok) as Hn.
    unfold len in Hn; cbn [elements focused] in Hn.
    destruct (N.eqb_spec f 0) as [He | He].
      rewrite (drag_focused_rotate_bwd (mkRing l f) _ He Hn), rotate_backward_nonempty by exact Hne.
      destruct l as [|x c]; [contradiction |].
      unfold set_elements; cbn [elements focused vd_rotate_left1].
      unfold cycle_focus.
      rewrite (next_index_backward (mkRing (c ++ [x]) f))
        by (split; unfold len; cbn [elements focused]; rewrite length_app in *; cbn [length] in *; lia).
      unfold len; cbn [elements focused bind].
      rewrite (proj2 (N.eqb_eq _ _) He).
      exists x, (mkRing (c ++ [x]) (N.of_nat (length (c ++ [x])) - 1)).
      unfold focused_elem, set_focused; cbn [elements focused].
      rewrite (vd_get_at c [] x) by (rewrite length_app; cbn [length]; lia).
      subst f. repeat split.
      rewrite Hn, length_app. cbn [length]. f_equal. lia.
      rewrite (drag_focused_swap_bwd (mkRing l f) _ He Hn).
      cbn [elements focused].
      pose proof (firstn_skipn (N.to_nat f - 1) l) as Ed.
      pose proof (length_skipn (N.to_nat f - 1) l) as Ls.
      pose proof (length_firstn (N.to_nat f - 1) l) as Lf.
      set (a := firstn (N.to_nat f - 1) l) in *.
      destruct (skipn (N.to_nat f - 1) l) as [|y [|x c]]; cbn [length] in Ls; [lia | lia |].
      assert (Ha : length a = (N.to_nat f - 1)%nat) by lia.
      clearbody a. subst l. clear Lf Ls.
      rewrite (vd_swap_prev a c y x f (f - 1)) by lia. cbn [bind].
      unfold set_elements; cbn [elements focused].
      unfold cycle_focus.
      rewrite (next_index_backward (mkRing (a ++ x :: y :: c) f))
        by (split; unfold len; cbn [elements focused]; rewrite length_app in *; cbn [length] in *; lia).
      unfold len; cbn [elements focused bind].
      rewrite (proj2 (N.eqb_neq _ _) He).
      exists x, (mkRing (a ++ x :: y :: c) (f - 1)).
      unfold focused_elem, set_focused; cbn [elements focused].
      rewrite (vd_get_at2 a c y x f) by lia.
      rewrite (vd_get_at a _ x (f - 1)) by lia.
      repeat split; [exact Hn |].
      apply vd_swap_prev; lia.
Qed.

Lemma rotate_perm : forall (r : Ring T) d, Permutation (elements (rotate r d)) (elements r).
Proof.
  intros [[|x l] f] d; [reflexivity |].
  destruct d; cbn [rotate elements set_elements].
  - apply vd_rotate_right1_perm.
  - apply vd_rotate_left1_perm.
Qed.

Lemma len_perm : forall r r' : Ring T,
  Permutation (elements r') (elements r) -> len r' = len r.
Proof. intros r r' H. unfold len. rewrite (Permutation_length H). reflexivity. Qed.

Lemma vd_find_from_found : forall (f : T -> bool) (l : list T) k i x,
  vd_find_from f k l = Some (i, x) ->
  (k <= i)%N /\ nth_error l (N.to_nat (i - k)) = Some x.
Proof.
  intros f l. induction l as [|y l IH]; intros k i x H; cbn [vd_find_from] in H;
    [discriminate |].
  destruct (f y).
  - injection H as <- <-. rewrite N.sub_diag. split; [lia | reflexivity].
  - destruct (IH _ _ _ H) as [Hk Hn]. split; [lia |].
    replace (N.to_nat (i - k)) with (S (N.to_nat (i - N.succ k))) by lia.
    exact Hn.
Qed.

Lemma vd_find_from_none : forall (f : T -> bool) (l : list T) k,
  (forall x, In x l -> f x = false) -> vd_find_from f k l = None.
Proof.
  intros f l. induction l as [|y l IH]; intros k H; [reflexivity |].
  cbn [vd_find_from]. rewrite (H y (or_introl eq_refl)).
  apply IH. intros x Hx. apply H. right. exact Hx.
Qed.

Lemma vd_remove_cases : forall (l l' : list T) i c,
  vd_remove l i = (l', c) ->
  (c = None /\ l' = l) \/ (exists x, c = Some x /\ S (length l') = length l).
Proof.
  intros l l' i c H. unfold vd_remove in H.
  destruct (vd_get l i) as [x|] eqn:E.
  - injection H as <- <-. right. exists x. split; [reflexivity |].
    unfold vd_get in E. apply nth_error_split in E as (a & b & -> & Ha).
    rewrite <- Ha.
    assert (Hcut : forall a' : list T,
      firstn (length a') (a' ++ x :: b) ++ skipn (S (length a')) (a' ++ x :: b) = a' ++ b).
    { induction a' as [|z a' IH]; [reflexivity |].
      cbn [length firstn skipn app]. f_equal. exact IH. }
    rewrite Hcut, !length_app. cbn [length]. lia.
  - injection H as <- <-. left. split; reflexivity.
Qed.

Lemma clamp_focus_no_panic : forall r : Ring T,
  ((0 < focused r)%N -> (1 <= len r)%N) -> clamp_focus p r <> Panic.
Proof.
  intros r H. unfold clamp_focus.
  destruct (N.ltb_spec 0 (focused r)) as [Hf | Hf]; [| discriminate].
  rewrite usize_sub_ok by (apply H; exact Hf). cbn [bind].
  destruct (_ <=? _)%N; [| discriminate].
  rewrite usize_sub_ok by lia. discriminate.
Qed.

Lemma remove_at_no_panic : forall (r : Ring T) i, ring_ok r -> remove_at p r i <> Panic.
Proof.
  intros r i [Hf _]. unfold remove_at.
  destruct (vd_remove (elements r) i) as [l' c] eqn:E.
  destruct (clamp_focus p (set_elements r l')) eqn:Ec; [discriminate |].
  exfalso. revert Ec. apply clamp_focus_no_panic.
  unfold len in *; cbn [elements focused set_elements].
  apply vd_remove_cases in E as [[_ ->] | (x & _ & Hl)]; intros; lia.
Qed.

Lemma ring_index_out_of_range : forall (r : Ring T) i,
  (len r <= i)%N -> ring_index r i = Panic.
Proof.
  intros r i H. unfold ring_index, vd_index, vd_get.
  rewrite (proj2 (nth_error_None _ _)) by (unfold len in H; lia). reflexivity.
Qed.

End WellFormed.

(** ** Claims *)

(** C1: the invariant [0 <= focused_index() < len()] on a non-empty ring is
    broken by one call: [focus(Index(5))] on [[1,2,3]] stores [5] as the
    focused index and the ring stays non-empty. *)
Theorem C1_focus_index_breaks_invariant :
  focus (new [1; 2; 3]) (Index 5) = Ok (mkRing [1; 2; 3] 5%N, None) /\
  (len (mkRing [1; 2; 3] 5%N) > 0)%N /\
  ~ (focused_index (mkRing [1; 2; 3] 5%N) < len (mkRing [1; 2; 3] 5%N))%N.
Proof. split; [reflexivity | split; [reflexivity | vm_compute; discriminate]]. Qed.

(** C2: removing an element after the focused index moves the focus:
    [[1,2,3]] focused at 1, [remove(Index(2))] returns [3] and leaves
    [[1,2]] focused at 0, although [focused = 1 < 2 = new length]. *)
Theorem C2_remove_after_focus_moves_focus :
  forall p : Overflow,
    remove p (mkRing [1; 2; 3] 1%N) (Index 2) = Ok (mkRing [1; 2] 0%N, Some 3) /\
    remove p (mkRing [1; 2; 3] 2%N) Focused = Ok (mkRing [1; 2] 1%N, Some 3).
Proof. intros []; split; reflexivity. Qed.

(** C3: [focus(Index(5))] on [[1,2,3]] matches nothing and returns nothing,
    but the focused index changes from 0 to 5. *)
Theorem C3_focus_no_match_changes_focus :
  exists r', focus (new [1; 2; 3]) (Index 5) = Ok (r', None) /\
             focused_index r' <> focused_index (new [1; 2; 3]) /\
             focused_index r' = 5%N.
Proof. exists (mkRing [1; 2; 3] 5%N). split; [reflexivity | split; [discriminate | reflexivity]]. Qed.

(** C4 (counterexample): [would_wrap(Backward)] on the empty ring panics in a
    checked build and answers [true] in a wrapping build; positional indexing
    out of range panics; [drag_focused] on the empty ring panics in both. *)
Lemma C4_not_total :
  would_wrap Checked (new (@nil nat)) Backward = Panic /\
  would_wrap Wrapping (new (@nil nat)) Backward = Ok true /\
  ring_index (new [1; 2; 3]) 5 = Panic /\
  drag_focused Checked (new (@nil nat)) Forward = Panic /\
  drag_focused Wrapping (new (@nil nat)) Forward = Panic.
Proof. repeat split; reflexivity. Qed.

(** C5: [remove(Index(5))] on [[1,2,3]] focused at 2 removes nothing and
    returns nothing, but moves the focus to 1. *)
Theorem C5_remove_no_match_moves_focus :
  forall p : Overflow,
    remove p (mkRing [1; 2; 3] 2%N) (Index 5) = Ok (mkRing [1; 2; 3] 1%N, None).
Proof. intros []; reflexivity. Qed.

(** C7: [rotate(Forward)] then [rotate(Backward)] gives back the ring, and
    rotation never changes the focused index. *)
Theorem C7_rotate_forward_backward :
  forall (T : Type) (r : Ring T),
    rotate (rotate r Forward) Backward = r /\
    (forall d, focused_index (rotate r d) = focused_index r).
Proof.
  intros T [[|x l] f]; split.
  - reflexivity.
  - reflexivity.
  - unfold rotate, set_elements; cbn [elements focused vd_rotate_right1 vd_rotate_left1].
    f_equal. symmetry. apply app_removelast_last. discriminate.
  - intros []; reflexivity.
Qed.

(** C8: the [WinId] selector is no match for [element], [element_mut],
    [focus] and [remove]: nothing is returned and the ring is unchanged. *)
Theorem C8_winid_is_no_match :
  forall (T : Type) (r : Ring T) (w : WinId),
    element r (SelWinId w) = None /\
    element_mut r (SelWinId w) = None /\
    focus r (SelWinId w) = Ok (r, None) /\
    (forall p, remove p r (SelWinId w) = Ok (r, None)).
Proof. intros T r w. repeat split. Qed.

(** C9: on a well-formed (hence non-empty) ring, [cycle_focus(d)] followed by
    [cycle_focus(d.reverse())] gives back the focused index; neither call
    changes the elements. *)
Theorem C9_cycle_focus_reverse :
  forall (T : Type) (p : Overflow) (r : Ring T) (d : Direction),
    ring_ok r ->
    exists r1 o1 o2,
      cycle_focus p r d = Ok (r1, o1) /\ elements r1 = elements r /\
      cycle_focus p r1 (reverse d) = Ok (r, o2).
Proof.
  intros T p [els f] d Hok. pose proof Hok as [Hf Hl].
  unfold cycle_focus, ring_ok, len in *; cbn [elements focused] in *.
  destruct d; cbn [reverse].
  - rewrite (next_index_forward p (mkRing els f) Hok). unfold set_focused; cbn [bind focused elements].
    destruct (N.eqb_spec f (len (mkRing els f) - 1)) as [He | Hne];
      unfold len in *; cbn [elements] in *;
      (do 3 eexists; split; [reflexivity | split; [reflexivity |]]).
    + rewrite (next_index_backward p (mkRing els 0)) by (split; unfold len; cbn [elements focused]; lia).
      cbn [bind focused set_focused]. unfold len; cbn [elements].
      rewrite N.eqb_refl, <- He. reflexivity.
    + rewrite (next_index_backward p (mkRing els (f + 1))) by (split; unfold len; cbn [elements focused]; lia).
      cbn [bind focused set_focused].
      destruct (N.eqb_spec (f + 1) 0); [lia |].
      replace (f + 1 - 1)%N with f by lia. reflexivity.
  - rewrite (next_index_backward p (mkRing els f) Hok). unfold set_focused; cbn [bind focused elements].
    destruct (N.eqb_spec f 0) as [He | Hne];
      unfold len in *; cbn [elements] in *;
      (do 3 eexists; split; [reflexivity | split; [reflexivity |]]).
    + rewrite (next_index_forward p (mkRing els (N.of_nat (length els) - 1)))
        by (split; unfold len; cbn [elements focused]; lia).
      cbn [bind focused set_focused]. unfold len; cbn [elements].
      rewrite N.eqb_refl, <- He. reflexivity.
    + rewrite (next_index_forward p (mkRing els (f - 1))) by (split; unfold len; cbn [elements focused]; lia).
      cbn [bind focused set_focused]. unfold len; cbn [elements].
      destruct (N.eqb_spec (f - 1) (N.of_nat (length els) - 1)); [lia |].
      replace (f - 1 + 1)%N with f by lia. reflexivity.
Qed.

Lemma C9_cycle_focus_reverse_witness :
  ring_ok (mkRing [1; 2; 3] 2%N) /\
  exists r1 o1 o2,
    cycle_focus Checked (mkRing [1; 2; 3] 2%N) Forward = Ok (r1, o1) /\
    elements r1 = elements (mkRing [1; 2; 3] 2%N) /\
    cycle_focus Checked r1 (reverse Forward) = Ok (mkRing [1; 2; 3] 2%N, o2).
Proof.
  assert (H : ring_ok (mkRing [1; 2; 3] 2%N)) by (split; vm_compute; congruence).
  split; [exact H | exact (C9_cycle_focus_reverse nat Checked (mkRing [1; 2; 3] 2%N) Forward H)].
Defined.

(** C6: on a well-formed (hence non-empty) ring, the element focused before
    [drag_focused(d)] is the one it returns and the one focused after it;
    focus moves to the adjacent index in direction [d] (wrapping), and the
    elements are rotated when the drag crosses the boundary, otherwise the
    focused slot is swapped with that adjacent slot. *)
Theorem C6_drag_keeps_focused_element :
  forall (T : Type) (p : Overflow) (r : Ring T) (d : Direction),
    ring_ok r ->
    exists x r',
      focused_elem r = Some x /\
      drag_focused p r d = Ok (r', Some x) /\
      focused_elem r' = Some x /\
      next_index p r d = Ok (focused r') /\
      (if drag_crosses r d then elements r' = elements (rotate r d)
       else vd_swap (elements r) (focused r) (focused r') = Ok (elements r')).
Proof. intros T p r d Hok. exact (drag_focused_shape p r d Hok). Qed.

Lemma C6_drag_keeps_focused_element_witness :
  ring_ok (mkRing [1; 2; 3; 4] 3%N) /\
  exists x r',
    focused_elem (mkRing [1; 2; 3; 4] 3%N) = Some x /\
    drag_focused Checked (mkRing [1; 2; 3; 4] 3%N) Forward = Ok (r', Some x) /\
    focused_elem r' = Some x /\
    next_index Checked (mkRing [1; 2; 3; 4] 3%N) Forward = Ok (focused r') /\
    (if drag_crosses (mkRing [1; 2; 3; 4] 3%N) Forward
     then elements r' = elements (rotate (mkRing [1; 2; 3; 4] 3%N) Forward)
     else vd_swap [1; 2; 3; 4] 3%N (focused r') = Ok (elements r')).
Proof.
  assert (H : ring_ok (mkRing [1; 2; 3; 4] 3%N)) by (split; vm_compute; congruence).
  split; [exact H |].
  exact (C6_drag_keeps_focused_element nat Checked (mkRing [1; 2; 3; 4] 3%N) Forward H).
Defined.

(** C10: on a well-formed (hence non-empty) ring, [rotate], [cycle_focus]
    and [drag_focused] keep [len()] and the multiset of elements: rotate and
    drag permute the elements, cycle_focus leaves them as they are. *)
Theorem C10_reorderings_are_permutations :
  forall (T : Type) (p : Overflow) (r : Ring T) (d : Direction),
    ring_ok r ->
    (len (rotate r d) = len r /\ Permutation (elements (rotate r d)) (elements r)) /\
    (exists r1 o1, cycle_focus p r d = Ok (r1, o1) /\
                   len r1 = len r /\ elements r1 = elements r) /\
    (exists r2 o2, drag_focused p r d = Ok (r2, o2) /\
                   len r2 = len r /\ Permutation (elements r2) (elements r)).
Proof.
  intros T p r d Hok. split; [| split].
  - split; [apply len_perm |]; apply rotate_perm.
  - unfold cycle_focus. destruct d.
    + rewrite (next_index_forward p r Hok). cbn [bind]. do 2 eexists.
      split; [reflexivity | split; reflexivity].
    + rewrite (next_index_backward p r Hok). cbn [bind]. do 2 eexists.
      split; [reflexivity | split; reflexivity].
  - destruct (drag_focused_shape p r d Hok) as (x & r' & _ & Hd & _ & _ & Hshape).
    assert (Hp : Permutation (elements r') (elements r)).
    { destruct (drag_crosses r d).
      - rewrite Hshape. apply rotate_perm.
      - exact (vd_swap_perm _ _ _ _ Hshape). }
    exists r', (Some x). split; [exact Hd | split; [apply len_perm; exact Hp | exact Hp]].
Qed.

Lemma C10_reorderings_are_permutations_witness :
  ring_ok (mkRing [1; 2; 3] 1%N) /\
  ((len (rotate (mkRing [1; 2; 3] 1%N) Backward) = len (mkRing [1; 2; 3] 1%N) /\
    Permutation (elements (rotate (mkRing [1; 2; 3] 1%N) Backward)) [1; 2; 3]) /\
   (exists r1 o1, cycle_focus Wrapping (mkRing [1; 2; 3] 1%N) Backward = Ok (r1, o1) /\
                  len r1 = len (mkRing [1; 2; 3] 1%N) /\ elements r1 = [1; 2; 3]) /\
   (exists r2 o2, drag_focused Wrapping (mkRing [1; 2; 3] 1%N) Backward = Ok (r2, o2) /\
                  len r2 = len (mkRing [1; 2; 3] 1%N) /\ Permutation (elements r2) [1; 2; 3])).
Proof.
  assert (H : ring_ok (mkRing [1; 2; 3] 1%N)) by (split; vm_compute; congruence).
  split; [exact H |].
  exact (C10_reorderings_are_permutations nat Wrapping (mkRing [1; 2; 3] 1%N) Backward H).
Defined.

(** C4: on a well-formed ring (focused index in range, hence non-empty),
    [would_wrap], [cycle_focus], [drag_focused], [focus] and [remove] never
    panic ([focused], [element] and [element_mut] are total functions here),
    and a [Condition] that no element satisfies, or a [WinId], makes
    [element], [focus] and [remove] return nothing and leave the ring as it
    is.  On the empty ring focused at 0, [focused], [element], [focus] and
    [remove] return nothing without panicking, and [remove] changes nothing.
    Positional indexing [ring[i]] panics for every [i >= len()]. *)
Theorem C4_soft_failure_on_well_formed_rings :
  forall (T : Type) (p : Overflow),
    (forall (r : Ring T) (d : Direction) (s : Selector T),
       ring_ok r ->
       would_wrap p r d <> Panic /\ cycle_focus p r d <> Panic /\
       drag_focused p r d <> Panic /\ focus r s <> Panic /\ remove p r s <> Panic) /\
    (forall (r : Ring T) (s : Selector T),
       match s with
       | Condition f => forall x, In x (elements r) -> f x = false
       | SelWinId _ => True
       | _ => False
       end ->
       element r s = None /\ focus r s = Ok (r, None) /\ remove p r s = Ok (r, None)) /\
    (forall s : Selector T,
       focused_elem (new (@nil T)) = None /\ element (new (@nil T)) s = None /\
       (exists r', focus (new (@nil T)) s = Ok (r', None)) /\
       remove p (new (@nil T)) s = Ok (new (@nil T), None)) /\
    (forall (r : Ring T) (i : N), (len r <= i)%N -> ring_index r i = Panic).
Proof.
  intros T p. split; [| split; [| split]].
  - intros r d s Hok. pose proof Hok as [Hf Hl].
    split; [| split; [| split; [| split]]].
    + unfold would_wrap. rewrite usize_sub_ok by lia. discriminate.
    + unfold cycle_focus. destruct d;
        [rewrite (next_index_forward p r Hok) | rewrite (next_index_backward p r Hok)];
        discriminate.
    + destruct (drag_focused_shape p r d Hok) as (x & r' & _ & Hd & _).
      rewrite Hd. discriminate.
    + destruct s as [| i | w | f]; cbn [focus]; try discriminate.
      unfold element_by.
      destruct (vd_find_from f 0 (elements r)) as [[i x]|] eqn:E; [| discriminate].
      apply vd_find_from_found in E as [_ Hn]. rewrite N.sub_0_r in Hn.
      unfold vd_index, vd_get; cbn [elements focused set_focused].
      rewrite Hn. discriminate.
    + destruct s as [| i | w | f]; cbn [remove];
        try (apply remove_at_no_panic; exact Hok); try discriminate.
      destruct (element_by f r) as [[i x]|]; [| discriminate].
      apply remove_at_no_panic. exact Hok.
  - intros r [| i | w | f] Hs; try contradiction.
    + repeat split.
    + cbn [element focus remove]. unfold element_by.
      rewrite (vd_find_from_none f (elements r) 0 Hs). repeat split.
  - assert (Hnil : forall i : N, vd_get (@nil T) i = None)
      by (intros i; unfold vd_get; destruct (N.to_nat i); reflexivity).
    intros [| i | w | f]; repeat split;
      try (eexists; cbn [focus]; unfold focused_elem, set_focused;
           cbn [elements focused new]; try rewrite Hnil; reflexivity);
      unfold element, remove, remove_at, vd_remove; cbn [elements new];
      try rewrite Hnil; destruct p; reflexivity.
  - intros r i H. apply ring_index_out_of_range. exact H.
Qed.

Lemma C4_soft_failure_on_well_formed_rings_witness :
  ring_ok (mkRing [1; 2; 3] 2%N) /\
  (would_wrap Checked (mkRing [1; 2; 3] 2%N) Forward <> Panic /\
   cycle_focus Checked (mkRing [1; 2; 3] 2%N) Forward <> Panic /\
   drag_focused Checked (mkRing [1; 2; 3] 2%N) Forward <> Panic /\
   focus (mkRing [1; 2; 3] 2%N) (Index 7) <> Panic /\
   remove Checked (mkRing [1; 2; 3] 2%N) (Index 7) <> Panic) /\
  (len (mkRing [1; 2; 3] 2%N) <= 3)%N /\
  ring_index (mkRing [1; 2; 3] 2%N) 3 = Panic.
Proof.
  assert (H : ring_ok (mkRing [1; 2; 3] 2%N)) by (split; vm_compute; congruence).
  assert (H3 : (len (mkRing [1; 2; 3] 2%N) <= 3)%N) by (vm_compute; congruence).
  destruct (C4_soft_failure_on_well_formed_rings nat Checked) as (Hw & _ & _ & Hi).
  split; [exact H | split; [exact (Hw (mkRing [1; 2; 3] 2%N) Forward (Index 7) H) |]].
  split; [exact H3 | exact (Hi (mkRing [1; 2; 3] 2%N) 3%N H3)].
Defined.

(** ** Further properties of the ring *)

Section MoreFacts.
Context {T : Type}.
Variable p : Overflow.

Lemma vd_remove_spec : forall (l l' : list T) i c,
  vd_remove l i = (l', c) ->
  match c with
  | Some x => exists a b, l = a ++ x :: b /\ l' = a ++ b /\ length a = N.to_nat i
  | None => l' = l /\ length l <= N.to_nat i
  end.
Proof.
  intros l l' i c H. unfold vd_remove, vd_get in H.
  destruct (nth_error l (N.to_nat i)) as [x|] eqn:E.
  - injection H as <- <-.
    exists (firstn (N.to_nat i) l), (skipn (S (N.to_nat i)) l).
    split; [symmetry; apply firstn_skipn_middle; exact E | split; [reflexivity |]].
    assert (Hi : N.to_nat i < length l) by (apply nth_error_Some; rewrite E; discriminate).
    rewrite length_firstn. lia.
  - injection H as <- <-. split; [reflexivity |]. apply nth_error_None. exact E.
Qed.

Lemma split_unique : forall (a a' b b' : list T) x y,
  a ++ x :: b = a' ++ y :: b' -> length a = length a' -> a = a' /\ x = y /\ b = b'.
Proof.
  induction a as [|z a IH]; intros [|z' a'] b b' x y H Hl; cbn [length app] in *;
    try discriminate.
  - injection H as -> ->. auto.
  - injection H as -> H. injection Hl as Hl.
    destruct (IH a' b b' x y H Hl) as (-> & -> & ->). auto.
Qed.

Lemma vd_find_from_first : forall (f : T -> bool) (l : list T) k i x,
  vd_find_from f k l = Some (i, x) ->
  exists a b, l = a ++ x :: b /\ i = (k + N.of_nat (length a))%N /\ f x = true /\
              (forall y, In y a -> f y = false).
Proof.
  intros f l. induction l as [|y l IH]; intros k i x H; cbn [vd_find_from] in H;
    [discriminate |].
  destruct (f y) eqn:Ey.
  - injection H as <- <-. exists [], l. cbn [app length].
    split; [reflexivity | split; [lia | split; [exact Ey | intros z []]]].
  - destruct (IH _ _ _ H) as (a & b & -> & Hi & Hx & Ha).
    exists (y :: a), b. cbn [app length].
    split; [reflexivity | split; [lia | split; [exact Hx |]]].
    intros z [<- | Hz]; [exact Ey | exact (Ha z Hz)].
Qed.

Lemma vd_find_from_none_all : forall (f : T -> bool) (l : list T) k,
  vd_find_from f k l = None -> forall y, In y l -> f y = false.
Proof.
  intros f l. induction l as [|z l IH]; intros k H y Hy; [destruct Hy |].
  cbn [vd_find_from] in H. destruct (f z) eqn:Ez; [discriminate |].
  destruct Hy as [<- | Hy]; [exact Ez | exact (IH _ H y Hy)].
Qed.

Lemma next_index_lt : forall (r : Ring T) d, ring_ok r ->
  exists i, next_index p r d = Ok i /\ (i < len r)%N.
Proof.
  intros r d Hok. pose proof Hok as [Hf Hl]. destruct d.
  - rewrite (next_index_forward p r Hok). eexists. split; [reflexivity |].
    destruct (N.eqb_spec (focused r) (len r - 1)); lia.
  - rewrite (next_index_backward p r Hok). eexists. split; [reflexivity |].
    destruct (N.eqb_spec (focused r) 0); lia.
Qed.

Lemma focused_elem_ok : forall r : Ring T, ring_ok r -> exists x, focused_elem r = Some x.
Proof.
  intros r [Hf _]. unfold focused_elem, vd_get.
  destruct (nth_error (elements r) (N.to_nat (focused r))) as [x|] eqn:E; [eauto |].
  apply nth_error_None in E. unfold len in Hf. lia.
Qed.

Lemma cut_middle : forall (a b : list T) x,
  firstn (length a) (a ++ x :: b) ++ skipn (S (length a)) (a ++ x :: b) = a ++ b.
Proof.
  induction a as [|z a IH]; intros b x; [reflexivity |].
  cbn [length firstn skipn app]. f_equal. apply IH.
Qed.

Lemma insert_ok : forall (r : Ring T) i x,
  (i <= len r)%N ->
  insert r i x =
  Ok (set_elements r (firstn (N.to_nat i) (elements r) ++ x :: skipn (N.to_nat i) (elements r))).
Proof.
  intros r i x H. unfold insert, vd_insert. apply N.leb_le in H. unfold len in H.
  rewrite H. reflexivity.
Qed.

Lemma rotate_snoc_forward : forall (l : list T) z f,
  rotate (mkRing (l ++ [z]) f) Forward = mkRing (z :: l) f.
Proof.
  intros l z f. rewrite rotate_forward_nonempty by (cbn [elements]; destruct l; discriminate).
  unfold set_elements. cbn [elements focused]. rewrite vd_rotate_right1_snoc. reflexivity.
Qed.

Lemma rotate_iter_backward : forall (a b : list T) f,
  Nat.iter (length a) (fun r => rotate r Backward) (mkRing (a ++ b) f) = mkRing (b ++ a) f.
Proof.
  induction a as [|z a IH]; intros b f.
  - cbn [length Nat.iter app]. rewrite app_nil_r. reflexivity.
  - cbn [length]. rewrite Nat.iter_succ_r. cbn [app rotate elements set_elements
      vd_rotate_left1 focused].
    unfold rotate, set_elements. cbn [elements focused app vd_rotate_left1].
    rewrite <- app_assoc, IH, <- app_assoc. reflexivity.
Qed.

Lemma rotate_iter_forward : forall (b a : list T) f,
  Nat.iter (length b) (fun r => rotate r Forward) (mkRing (a ++ b) f) = mkRing (b ++ a) f.
Proof.
  induction b as [|z b IH] using rev_ind; intros a f.
  - cbn [length Nat.iter app]. rewrite app_nil_r. reflexivity.
  - rewrite length_app, Nat.add_comm. cbn [length Nat.add]. rewrite Nat.iter_succ_r.
    rewrite app_assoc, rotate_snoc_forward.
    change (z :: a ++ b) with ((z :: a) ++ b). rewrite IH, <- app_assoc. reflexivity.
Qed.

Lemma clamp_focus_eq : forall r : Ring T,
  ((0 < focused r)%N -> (1 <= len r)%N) ->
  clamp_focus p r =
  Ok (set_focused r (if ((0 <? focused r) && (len r - 1 <=? focused r))%N%bool
                     then (focused r - 1)%N else focused r)).
Proof.
  intros r H. unfold clamp_focus.
  destruct (N.ltb_spec 0 (focused r)) as [Hf | Hf]; cbn [andb].
  - rewrite usize_sub_ok by (apply H; exact Hf). cbn [bind].
    destruct (_ <=? _)%N.
    + rewrite usize_sub_ok by lia. reflexivity.
    + rewrite set_focused_same. reflexivity.
  - rewrite set_focused_same. reflexivity.
Qed.

Lemma clamp_focus_elements : forall r r' : Ring T,
  clamp_focus p r = Ok r' -> elements r' = elements r.
Proof.
  intros r r' H. unfold clamp_focus in H.
  destruct (0 <? focused r)%N; [| injection H as <-; reflexivity].
  destruct (usize_sub p (len r) 1) as [m|]; cbn [bind] in H; [| discriminate].
  destruct (m <=? focused r)%N; [| injection H as <-; reflexivity].
  destruct (usize_sub p (focused r) 1) as [f|]; cbn [bind] in H; [| discriminate].
  injection H as <-. reflexivity.
Qed.

(** What [remove] does to the elements, whatever the selector. *)
Lemma remove_elements : forall (r r' : Ring T) s c,
  remove p r s = Ok (r', c) ->
  match c with
  | Some x => exists a b, elements r = a ++ x :: b /\ elements r' = a ++ b
  | None => elements r' = elements r
  end.
Proof.
  intros r r' s c H.
  assert (Hat : forall i, remove_at p r i = Ok (r', c) ->
    match c with
    | Some x => exists a b, elements r = a ++ x :: b /\ elements r' = a ++ b
    | None => elements r' = elements r
    end).
  { intros i Hi. unfold remove_at in Hi.
    destruct (vd_remove (elements r) i) as [l' c'] eqn:E.
    destruct (clamp_focus p (set_elements r l')) as [r1|] eqn:Ec; cbn [bind] in Hi;
      [| discriminate].
    injection Hi as <- <-. apply clamp_focus_elements in Ec.
    cbn [elements set_elements] in Ec. rewrite Ec.
    apply vd_remove_spec in E. destruct c' as [x|].
    - destruct E as (a & b & El & Hl' & _). exists a, b. split; assumption.
    - apply E. }
  destruct s as [| i | w | f]; cbn [remove] in H.
  - exact (Hat _ H).
  - exact (Hat _ H).
  - injection H as <- <-. reflexivity.
  - destruct (element_by f r) as [[i x]|]; [exact (Hat _ H) |].
    injection H as <- <-. reflexivity.
Qed.

(** The focus after [remove] on a well-formed ring. *)
Lemma remove_focus : forall (r r' : Ring T) s c,
  ring_ok r -> remove p r s = Ok (r', c) ->
  r' = r \/
  (focused r' = (if ((0 <? focused r) && (len r' - 1 <=? focused r))%N%bool
                 then (focused r - 1)%N else focused r) /\
   (len r' = len r \/ len r' + 1 = len r)%N).
Proof.
  intros r r' s c Hok H. pose proof Hok as [Hf Hl].
  assert (Hat : forall i, remove_at p r i = Ok (r', c) ->
    focused r' = (if ((0 <? focused r) && (len r' - 1 <=? focused r))%N%bool
                  then (focused r - 1)%N else focused r) /\
    (len r' = len r \/ len r' + 1 = len r)%N).
  { intros i Hi. unfold remove_at in Hi.
    destruct (vd_remove (elements r) i) as [l' c'] eqn:E.
    assert (Hlen : length l' = length (elements r) \/ S (length l') = length (elements r)).
    { apply vd_remove_spec in E. destruct c' as [x|].
      - destruct E as (a & b & -> & -> & _). rewrite !length_app. cbn [length]. lia.
      - destruct E as [-> _]. left. reflexivity. }
    rewrite clamp_focus_eq in Hi
      by (unfold len in *; cbn [elements focused set_elements]; lia).
    cbn [bind] in Hi. injection Hi as <- <-.
    unfold set_focused, set_elements, len in *; cbn [elements focused].
    split; [reflexivity | lia]. }
  destruct s as [| i | w | f]; cbn [remove] in H.
  - right. exact (Hat _ H).
  - right. exact (Hat _ H).
  - left. injection H as <- <-. reflexivity.
  - destruct (element_by f r) as [[i x]|]; [right; exact (Hat _ H) |].
    left. injection H as <- <-. reflexivity.
Qed.

End MoreFacts.

(** [remove] hands back exactly what it takes out: when it returns an
    element, the elements before are the elements after plus that one; when
    it returns nothing, the elements are unchanged. *)
Theorem remove_loses_nothing :
  forall (T : Type) (p : Overflow) (r r' : Ring T) (s : Selector T) (c : option T),
    remove p r s = Ok (r', c) ->
    match c with
    | Some x => Permutation (x :: elements r') (elements r)
    | None => elements r' = elements r
    end.
Proof.
  intros T p r r' s c H. apply remove_elements in H.
  destruct c as [x|]; [| exact H].
  destruct H as (a & b & -> & ->). apply Permutation_middle.
Qed.

Lemma remove_loses_nothing_witness :
  remove Checked (mkRing [1; 2; 3; 4] 1%N) (Condition Nat.even) = Ok (mkRing [1; 3; 4] 1%N, Some 2) /\
  Permutation (2 :: elements (mkRing [1; 3; 4] 1%N)) (elements (mkRing [1; 2; 3; 4] 1%N)).
Proof.
  assert (H : remove Checked (mkRing [1; 2; 3; 4] 1%N) (Condition Nat.even)
              = Ok (mkRing [1; 3; 4] 1%N, Some 2)) by reflexivity.
  split; [exact H | exact (remove_loses_nothing nat Checked _ _ _ (Some 2) H)].
Defined.

(** On a well-formed ring, whatever the selector, [remove] leaves a ring
    that is well-formed again unless it is empty. *)
Theorem remove_keeps_ring_ok :
  forall (T : Type) (p : Overflow) (r r' : Ring T) (s : Selector T) (c : option T),
    ring_ok r -> remove p r s = Ok (r', c) -> elements r' <> [] -> ring_ok r'.
Proof.
  intros T p r r' s c Hok H Hne.
  assert (Hpos : (0 < len r')%N)
    by (unfold len; destruct (elements r'); [contradiction | cbn [length]; lia]).
  destruct (remove_focus p r r' s c Hok H) as [-> | [Hf Hlen]]; [exact Hok |].
  destruct Hok as [Hfo Hl]. split; [| lia].
  rewrite Hf. split_clamp; lia.
Qed.

Lemma remove_keeps_ring_ok_witness :
  ring_ok (mkRing [1; 2; 3] 2%N) /\
  remove Checked (mkRing [1; 2; 3] 2%N) Focused = Ok (mkRing [1; 2] 1%N, Some 3) /\
  elements (mkRing [1; 2] 1%N) <> [] /\
  ring_ok (mkRing [1; 2] 1%N).
Proof.
  assert (H1 : ring_ok (mkRing [1; 2; 3] 2%N)) by (split; vm_compute; congruence).
  assert (H2 : remove Checked (mkRing [1; 2; 3] 2%N) Focused = Ok (mkRing [1; 2] 1%N, Some 3))
    by reflexivity.
  assert (H3 : elements (mkRing [1; 2] 1%N) <> []) by discriminate.
  split; [exact H1 | split; [exact H2 | split; [exact H3 |]]].
  exact (remove_keeps_ring_ok nat Checked _ _ _ _ H1 H2 H3).
Defined.

(** On a well-formed ring, [remove] never moves the focused index forward
    and moves it back by at most one. *)
Theorem remove_focus_moves_back_at_most_one :
  forall (T : Type) (p : Overflow) (r r' : Ring T) (s : Selector T) (c : option T),
    ring_ok r -> remove p r s = Ok (r', c) ->
    (focused r' <= focused r <= focused r' + 1)%N.
Proof.
  intros T p r r' s c Hok H.
  destruct (remove_focus p r r' s c Hok H) as [-> | [Hf _]]; [lia |].
  rewrite Hf. split_clamp; lia.
Qed.

Lemma remove_focus_moves_back_at_most_one_witness :
  ring_ok (mkRing [1; 2; 3] 1%N) /\
  remove Wrapping (mkRing [1; 2; 3] 1%N) (Index 2) = Ok (mkRing [1; 2] 0%N, Some 3) /\
  (focused (mkRing [1; 2] 0%N) <= focused (mkRing [1; 2; 3] 1%N) <= focused (mkRing [1; 2] 0%N) + 1)%N.
Proof.
  assert (H1 : ring_ok (mkRing [1; 2; 3] 1%N)) by (split; vm_compute; congruence).
  assert (H2 : remove Wrapping (mkRing [1; 2; 3] 1%N) (Index 2) = Ok (mkRing [1; 2] 0%N, Some 3))
    by reflexivity.
  split; [exact H1 | split; [exact H2 |]].
  exact (remove_focus_moves_back_at_most_one nat Wrapping _ _ _ _ H1 H2).
Defined.

(** [element(Condition(f))] returns the first element, in ring order, that
    satisfies [f], and nothing only when no element satisfies it. *)
Theorem element_condition_first :
  forall (T : Type) (r : Ring T) (f : T -> bool),
    match element r (Condition f) with
    | Some x => exists a b, elements r = a ++ x :: b /\ f x = true /\
                            (forall y, In y a -> f y = false)
    | None => forall y, In y (elements r) -> f y = false
    end.
Proof.
  intros T r f. cbn [element]. unfold element_by.
  destruct (vd_find_from f 0 (elements r)) as [[i x]|] eqn:E.
  - apply vd_find_from_first in E as (a & b & El & _ & Hx & Ha).
    exists a, b. auto.
  - exact (vd_find_from_none_all f _ 0 E).
Qed.

(** [focus(Condition(f))] focuses the first element that satisfies [f] and
    returns it; when none does, it returns nothing and changes nothing.  The
    elements are never reordered. *)
Theorem focus_condition_first :
  forall (T : Type) (r r' : Ring T) (f : T -> bool) (o : option T),
    focus r (Condition f) = Ok (r', o) ->
    match o with
    | Some x => exists a b, elements r = a ++ x :: b /\ elements r' = elements r /\
                            focused r' = N.of_nat (length a) /\ f x = true /\
                            (forall y, In y a -> f y = false)
    | None => r' = r /\ forall y, In y (elements r) -> f y = false
    end.
Proof.
  intros T r r' f o H. cbn [focus] in H. unfold element_by in H.
  destruct (vd_find_from f 0 (elements r)) as [[i x]|] eqn:E.
  - apply vd_find_from_first in E as (a & b & El & Hi & Hx & Ha).
    unfold vd_index, vd_get in H. cbn [elements focused set_focused] in H.
    rewrite El, Hi, N.add_0_l, Nat2N.id, nth_error_app2, Nat.sub_diag in H by lia.
    cbn [nth_error bind] in H. injection H as <- <-.
    exists a, b. cbn [elements focused set_focused]. auto.
  - injection H as <- <-. split; [reflexivity |].
    exact (vd_find_from_none_all f _ 0 E).
Qed.

Lemma focus_condition_first_witness :
  focus (mkRing [1; 3; 4; 6] 0%N) (Condition Nat.even) = Ok (mkRing [1; 3; 4; 6] 2%N, Some 4) /\
  exists a b, [1; 3; 4; 6] = a ++ 4 :: b /\ elements (mkRing [1; 3; 4; 6] 2%N) = [1; 3; 4; 6] /\
              focused (mkRing [1; 3; 4; 6] 2%N) = N.of_nat (length a) /\ Nat.even 4 = true /\
              (forall y, In y a -> Nat.even y = false).
Proof.
  assert (H : focus (mkRing [1; 3; 4; 6] 0%N) (Condition Nat.even)
              = Ok (mkRing [1; 3; 4; 6] 2%N, Some 4)) by reflexivity.
  split; [exact H | exact (focus_condition_first nat _ _ Nat.even (Some 4) H)].
Defined.

(** [remove(Condition(f))] takes out the first element, in ring order, that
    satisfies [f], and only that one. *)
Theorem remove_condition_first :
  forall (T : Type) (p : Overflow) (r r' : Ring T) (f : T -> bool) (x : T),
    remove p r (Condition f) = Ok (r', Some x) ->
    exists a b, elements r = a ++ x :: b /\ elements r' = a ++ b /\ f x = true /\
                (forall y, In y a -> f y = false).
Proof.
  intros T p r r' f x H.
  cbn [remove] in H. unfold element_by in H.
  destruct (vd_find_from f 0 (elements r)) as [[i y]|] eqn:E; [| discriminate].
  apply vd_find_from_first in E as (a' & b' & El2 & Hi & Hy & Ha').
  unfold remove_at in H.
  destruct (vd_remove (elements r) i) as [l' c] eqn:Er.
  destruct (clamp_focus p (set_elements r l')) as [r1|] eqn:Ec; cbn [bind] in H;
    [| discriminate].
  injection H as <- ->. apply clamp_focus_elements in Ec. cbn [elements set_elements] in Ec.
  apply vd_remove_spec in Er as (a2 & b2 & El3 & El' & Hl2).
  rewrite El3 in El2. apply split_unique in El2 as (-> & <- & ->); [| lia].
  exists a', b'. rewrite Ec, El'. auto.
Qed.

Lemma remove_condition_first_witness :
  remove Checked (mkRing [1; 2; 3; 4] 3%N) (Condition Nat.even) = Ok (mkRing [1; 3; 4] 2%N, Some 2) /\
  exists a b, [1; 2; 3; 4] = a ++ 2 :: b /\ elements (mkRing [1; 3; 4] 2%N) = a ++ b /\
              Nat.even 2 = true /\ (forall y, In y a -> Nat.even y = false).
Proof.
  assert (H : remove Checked (mkRing [1; 2; 3; 4] 3%N) (Condition Nat.even)
              = Ok (mkRing [1; 3; 4] 2%N, Some 2)) by reflexivity.
  split; [exact H | exact (remove_condition_first nat Checked _ _ Nat.even 2 H)].
Defined.




(** On a well-formed ring, [focus] keeps the ring well-formed unless the
    selector is an [Index] out of range. *)
Theorem focus_keeps_ring_ok :
  forall (T : Type) (r r' : Ring T) (s : Selector T) (o : option T),
    ring_ok r -> (forall i, s = Index i -> (i < len r)%N) ->
    focus r s = Ok (r', o) -> ring_ok r'.
Proof.
  intros T r r' [| i | w | f] o Hok Hs H; cbn [focus] in H.
  - injection H as <- _. exact Hok.
  - injection H as <- _. apply ring_ok_set_focused; [exact Hok | exact (Hs i eq_refl)].
  - injection H as <- _. exact Hok.
  - unfold element_by in H. destruct (vd_find_from f 0 (elements r)) as [[i y]|] eqn:E.
    + unfold vd_index in H. destruct (vd_get _ _) as [z|] eqn:Ez; cbn [bind] in H;
        [| discriminate].
      injection H as <- _. apply ring_ok_set_focused; [exact Hok |].
      unfold vd_get in Ez. cbn [elements focused set_focused] in Ez.
      assert (Hn : N.to_nat i < length (elements r))
        by (apply nth_error_Some; rewrite Ez; discriminate).
      unfold len. lia.
    + injection H as <- _. exact Hok.
Qed.

Lemma focus_keeps_ring_ok_witness :
  ring_ok (mkRing [5; 6; 7] 0%N) /\
  focus (mkRing [5; 6; 7] 0%N) (Index 2) = Ok (mkRing [5; 6; 7] 2%N, Some 7) /\
  ring_ok (mkRing [5; 6; 7] 2%N).
Proof.
  assert (H1 : ring_ok (mkRing [5; 6; 7] 0%N)) by (split; vm_compute; congruence).
  assert (H2 : focus (mkRing [5; 6; 7] 0%N) (Index 2) = Ok (mkRing [5; 6; 7] 2%N, Some 7))
    by reflexivity.
  assert (Hs : forall i, @Index nat 2 = Index i -> (i < len (mkRing [5; 6; 7] 0%N))%N)
    by (intros i Hi; injection Hi as <-; vm_compute; reflexivity).
  split; [exact H1 | split; [exact H2 |]].
  exact (focus_keeps_ring_ok nat _ _ (Index 2) (Some 7) H1 Hs H2).
Defined.

(** On a well-formed ring, [remove(Focused)] takes out exactly the focused
    element and shortens the ring by one. *)
Theorem remove_focused_takes_focused :
  forall (T : Type) (p : Overflow) (r : Ring T),
    ring_ok r ->
    exists x r', focused_elem r = Some x /\ remove p r Focused = Ok (r', Some x) /\
                 (len r' + 1 = len r)%N.
Proof.
  intros T p r Hok. destruct (focused_elem_ok r Hok) as [x Hx].
  pose proof Hok as [Hf Hl].
  cbn [remove]. unfold remove_at, vd_remove. unfold focused_elem in Hx. rewrite Hx.
  unfold vd_get in Hx.
  assert (Hn : N.to_nat (focused r) < length (elements r))
    by (apply nth_error_Some; rewrite Hx; discriminate).
  assert (Hlen : length (firstn (N.to_nat (focused r)) (elements r) ++
                         skipn (S (N.to_nat (focused r))) (elements r))
                 = length (elements r) - 1)
    by (rewrite length_app, length_firstn, length_skipn; lia).
  rewrite clamp_focus_eq
    by (unfold len in *; cbn [elements focused set_elements]; rewrite Hlen; lia).
  cbn [bind]. exists x. eexists.
  split; [unfold focused_elem, vd_get; exact Hx | split; [reflexivity |]].
  unfold len in *. cbn [elements set_focused set_elements]. rewrite Hlen. lia.
Qed.

Lemma remove_focused_takes_focused_witness :
  ring_ok (mkRing [4; 5; 6] 1%N) /\
  exists x r', focused_elem (mkRing [4; 5; 6] 1%N) = Some x /\
               remove Checked (mkRing [4; 5; 6] 1%N) Focused = Ok (r', Some x) /\
               (len r' + 1 = len (mkRing [4; 5; 6] 1%N))%N.
Proof.
  assert (H : ring_ok (mkRing [4; 5; 6] 1%N)) by (split; vm_compute; congruence).
  split; [exact H | exact (remove_focused_takes_focused nat Checked _ H)].
Defined.

(** On a well-formed ring, [cycle_focus] and [drag_focused] always return an
    element and leave a well-formed ring. *)
Theorem cycle_and_drag_keep_ring_ok :
  forall (T : Type) (p : Overflow) (r : Ring T) (d : Direction),
    ring_ok r ->
    (exists r1 x1, cycle_focus p r d = Ok (r1, Some x1) /\ ring_ok r1) /\
    (exists r2 x2, drag_focused p r d = Ok (r2, Some x2) /\ ring_ok r2).
Proof.
  intros T p r d Hok. split.
  - destruct (next_index_lt p r d Hok) as (i & Hi & Hlt).
    assert (Hok1 : ring_ok (set_focused r i)) by (apply ring_ok_set_focused; assumption).
    destruct (focused_elem_ok _ Hok1) as [x Hx].
    exists (set_focused r i), x. unfold cycle_focus. rewrite Hi. cbn [bind].
    rewrite Hx. split; [reflexivity | exact Hok1].
  - destruct (drag_focused_shape p r d Hok) as (x & r' & _ & Hd & _ & Hn & Hshape).
    exists r', x. split; [exact Hd |].
    assert (Hp : Permutation (elements r') (elements r)).
    { destruct (drag_crosses r d).
      - rewrite Hshape. apply rotate_perm.
      - exact (vd_swap_perm _ _ _ _ Hshape). }
    destruct (next_index_lt p r d Hok) as (i & Hi & Hlt).
    rewrite Hn in Hi. injection Hi as Hi.
    destruct Hok as [_ Hl]. split; rewrite (len_perm r r' Hp); lia.
Qed.

Lemma cycle_and_drag_keep_ring_ok_witness :
  ring_ok (mkRing [4; 5; 6] 0%N) /\
  (exists r1 x1, cycle_focus Checked (mkRing [4; 5; 6] 0%N) Backward = Ok (r1, Some x1) /\ ring_ok r1) /\
  (exists r2 x2, drag_focused Checked (mkRing [4; 5; 6] 0%N) Backward = Ok (r2, Some x2) /\ ring_ok r2).
Proof.
  assert (H : ring_ok (mkRing [4; 5; 6] 0%N)) by (split; vm_compute; congruence).
  split; [exact H | exact (cycle_and_drag_keep_ring_ok nat Checked _ Backward H)].
Defined.

(** On a well-formed ring, [would_wrap(d)] is [true] exactly when
    [cycle_focus(d)] wraps around: forward to index 0, backward to the last
    index. *)
Theorem would_wrap_iff_cycle_wraps :
  forall (T : Type) (p : Overflow) (r : Ring T) (d : Direction),
    ring_ok r ->
    exists b r' o,
      would_wrap p r d = Ok b /\ cycle_focus p r d = Ok (r', o) /\
      (b = true <-> focused r' = match d with Forward => 0%N | Backward => (len r - 1)%N end).
Proof.
  intros T p r d Hok. pose proof Hok as [Hf Hl].
  unfold would_wrap, cycle_focus. rewrite usize_sub_ok by lia. cbn [bind].
  destruct d.
  - rewrite (next_index_forward p r Hok). cbn [bind].
    do 3 eexists. split; [reflexivity | split; [reflexivity |]].
    cbn [direction_eqb focused set_focused].
    destruct (N.eqb_spec (focused r) 0), (N.eqb_spec (focused r) (len r - 1));
      cbn [andb orb]; split; intros; lia || discriminate || reflexivity.
  - rewrite (next_index_backward p r Hok). cbn [bind].
    do 3 eexists. split; [reflexivity | split; [reflexivity |]].
    cbn [direction_eqb focused set_focused].
    destruct (N.eqb_spec (focused r) 0), (N.eqb_spec (focused r) (len r - 1));
      cbn [andb orb]; split; intros; lia || discriminate || reflexivity.
Qed.

Lemma would_wrap_iff_cycle_wraps_witness :
  ring_ok (mkRing [1; 2; 3] 2%N) /\
  exists b r' o,
    would_wrap Checked (mkRing [1; 2; 3] 2%N) Forward = Ok b /\
    cycle_focus Checked (mkRing [1; 2; 3] 2%N) Forward = Ok (r', o) /\
    (b = true <-> focused r' = 0%N).
Proof.
  assert (H : ring_ok (mkRing [1; 2; 3] 2%N)) by (split; vm_compute; congruence).
  split; [exact H | exact (would_wrap_iff_cycle_wraps nat Checked _ Forward H)].
Defined.

(** [insert(index, element)] panics exactly when [index > len]; otherwise
    the ring grows by one, the new element sits at [index], the elements
    before [index] stay where they were, those from [index] on move up by
    one slot, and the focus index is not changed. *)
Theorem insert_spec :
  forall (T : Type) (r : Ring T) (i : N) (x : T),
    match insert r i x with
    | Panic => (len r < i)%N
    | Ok r' =>
        (i <= len r)%N /\ len r' = (len r + 1)%N /\ focused r' = focused r /\
        element r' (Index i) = Some x /\
        (forall j, (j < i)%N -> element r' (Index j) = element r (Index j)) /\
        (forall j, (i <= j)%N -> element r' (Index (j + 1)) = element r (Index j))
    end.
Proof.
  intros T r i x.
  destruct (N.leb_spec i (len r)) as [Hi | Hi].
  - rewrite (insert_ok r i x Hi).
    set (l := elements r) in *. unfold len in Hi |- *. fold l in Hi |- *.
    assert (Hk : length (firstn (N.to_nat i) l) = N.to_nat i)
      by (rewrite length_firstn; lia).
    cbn [element set_elements elements focused]. unfold vd_get.
    split; [exact Hi |]. split.
    { rewrite length_app, length_firstn. cbn [length]. rewrite length_skipn. lia. }
    split; [reflexivity |]. split.
    { rewrite nth_error_app2 by lia. rewrite Hk, Nat.sub_diag. reflexivity. }
    split.
    + intros j Hj. rewrite nth_error_app1 by lia.
      rewrite nth_error_firstn. destruct (Nat.ltb_spec (N.to_nat j) (N.to_nat i));
        [reflexivity | lia].
    + intros j Hj. rewrite nth_error_app2 by lia. rewrite Hk.
      replace (N.to_nat (j + 1) - N.to_nat i) with (S (N.to_nat j - N.to_nat i)) by lia.
      cbn [nth_error]. rewrite nth_error_skipn. f_equal. lia.
  - unfold insert, vd_insert. unfold len in Hi.
    destruct (N.leb_spec i (N.of_nat (length (elements r)))); [lia |].
    cbn [bind]. unfold len. lia.
Qed.

(** Inserting an element at [index] and then removing [Index index] gives
    the element back and restores the original elements, provided the focus
    index is at most the length of the ring (as it is for a ring built by
    [new] or any well-formed ring). *)
Theorem insert_then_remove :
  forall (T : Type) (p : Overflow) (r r1 : Ring T) (i : N) (x : T),
    (focused r <= len r)%N ->
    insert r i x = Ok r1 ->
    exists r2, remove p r1 (Index i) = Ok (r2, Some x) /\ elements r2 = elements r.
Proof.
  intros T p r r1 i x Hf Hins.
  destruct (N.leb_spec i (len r)) as [Hi | Hi].
  2: { unfold insert, vd_insert in Hins. unfold len in Hi.
       destruct (N.leb_spec i (N.of_nat (length (elements r)))); [lia | discriminate]. }
  rewrite (insert_ok r i x Hi) in Hins. injection Hins as <-.
  set (a := firstn (N.to_nat i) (elements r)).
  set (b := skipn (N.to_nat i) (elements r)).
  assert (Hk : length a = N.to_nat i)
    by (unfold a; rewrite length_firstn; unfold len in Hi; lia).
  assert (Hab : a ++ b = elements r) by apply firstn_skipn.
  cbn [remove]. unfold remove_at, vd_remove. cbn [set_elements elements focused].
  unfold vd_get. rewrite nth_error_app2 by lia. rewrite Hk, Nat.sub_diag. cbn [nth_error].
  rewrite <- Hk, cut_middle, Hab.
  rewrite clamp_focus_eq.
  2: { unfold set_elements, len in *. cbn [focused elements] in *. lia. }
  cbn [bind]. eexists. split; [reflexivity | reflexivity].
Qed.

Lemma insert_then_remove_witness :
  insert (mkRing [7; 8; 9] 2%N) 1%N 5 = Ok (mkRing [7; 5; 8; 9] 2%N) /\
  exists r2, remove Checked (mkRing [7; 5; 8; 9] 2%N) (Index 1%N) = Ok (r2, Some 5) /\
             elements r2 = [7; 8; 9].
Proof.
  split; [reflexivity |].
  apply (insert_then_remove nat Checked (mkRing [7; 8; 9] 2%N) (mkRing [7; 5; 8; 9] 2%N) 1%N 5).
  - vm_compute. congruence.
  - reflexivity.
Defined.

(** Rotating a ring of [n] elements [n] times in the same direction gives
    back the ring: the same elements in the same order and the same focus
    index. *)
Theorem rotate_len_times_identity :
  forall (T : Type) (r : Ring T) (d : Direction),
    Nat.iter (length (elements r)) (fun r0 => rotate r0 d) r = r.
Proof.
  intros T [l f] d. cbn [elements].
  destruct d.
  - pose proof (rotate_iter_forward l [] f) as H. cbn [app] in H.
    rewrite app_nil_r in H. exact H.
  - pose proof (rotate_iter_backward l [] f) as H.
    rewrite app_nil_r in H. exact H.
Qed.


